(** * useAuthState: the authentication-state hook of ra-core

    A shallow embedding of [packages/ra-core/src/auth/useAuthState.ts]
    and the properties of its returned state and of its side effects
    (the [onSuccess] / [onError] callbacks, [logout] and [notify]).

    The hook is a function of what the other hooks hand to it on one
    render: the auth provider, the logout and notify functions, the
    basename, and the result object of [useQuery].  Its two [useEffect]
    bodies are embedded as computations that emit the calls they make;
    React's dependency arrays are embedded as the comparison of the
    dependencies of a render with those of the render before. *)

From Stdlib Require Import String Ascii List Bool Arith Lia.
Import ListNotations.
Open Scope string_scope.
Open Scope list_scope.

Set Implicit Arguments.

(** ** JavaScript values

    The error of the query is typed [any].  The fragment of values
    embedded here is: [undefined], [null], booleans, strings and
    objects.  An object carries the identity of its reference, which
    is what [Object.is] (hence a dependency array) compares. *)
Module Js.

#[local] Set Warnings "-register-all".

Inductive value : Type :=
| Undefined
| Null
| Bool (b : bool)
| Str (s : string)
| Obj (ref : nat) (fields : list (string * value)).

(** ToBoolean, as applied by [if], [!], [&&] and [? :]. *)
Definition truthy (v : value) : bool :=
  match v with
  | Undefined | Null => false
  | Bool b => b
  | Str s => negb (s =? "")
  | Obj _ _ => true
  end.

(** The [typeof] operator. *)
Definition typeof (v : value) : string :=
  match v with
  | Undefined => "undefined"
  | Null => "object"
  | Bool _ => "boolean"
  | Str _ => "string"
  | Obj _ _ => "object"
  end.

Fixpoint lookup (k : string) (fields : list (string * value)) : value :=
  match fields with
  | [] => Undefined
  | (k', v) :: rest => if k =? k' then v else lookup k rest
  end.

(** [v.k] for the two property names the hook reads, [message] and
    [redirectTo]: neither is a property of a boolean or of a string
    wrapper, and reading a property of [undefined] or [null] throws
    a TypeError ([None]). *)
Definition get (v : value) (k : string) : option value :=
  match v with
  | Undefined | Null => None
  | Bool _ | Str _ => Some Undefined
  | Obj _ fields => Some (lookup k fields)
  end.

(** [v === false]. *)
Definition strict_eq_false (v : value) : bool :=
  match v with
  | Bool false => true
  | _ => false
  end.

(** [v != null]: loose inequality, false exactly for [null] and
    [undefined]. *)
Definition neq_null (v : value) : bool :=
  match v with
  | Undefined | Null => false
  | _ => true
  end.

(** [Object.is], the comparison of React's dependency arrays. *)
Definition same (a b : value) : bool :=
  match a, b with
  | Undefined, Undefined => true
  | Null, Null => true
  | Bool x, Bool y => Bool.eqb x y
  | Str x, Str y => (x =? y)
  | Obj r _, Obj r' _ => Nat.eqb r r'
  | _, _ => false
  end.

End Js.

(** ** Calls made on the collaborators

    Functions are known by their identity only (the identity is what a
    dependency array compares); object literals passed as arguments
    ([{}], [{type: 'error'}]) are recorded by their fields. *)
Definition FnId := nat.

Inductive Event : Type :=
| EvOnSuccess (callback : FnId) (data : bool)
| EvOnError (callback : FnId) (err : Js.value)
| EvLogout (context : list (string * Js.value)) (redirectTo : Js.value)
| EvNotify (message : Js.value) (options : list (string * Js.value)).

(** ** Effect bodies: emitted calls and TypeErrors

    A computation yields the calls it made, in order, and its value,
    [None] when a TypeError cut it short. *)
Definition Eff (A : Type) : Type := (list Event * option A)%type.

Definition ret {A} (a : A) : Eff A := ([], Some a).

Definition bind {A B} (m : Eff A) (f : A -> Eff B) : Eff B :=
  match m with
  | (evs, Some a) => let '(evs', r) := f a in (evs ++ evs', r)
  | (evs, None) => (evs, None)
  end.

Definition emit (e : Event) : Eff unit := ([e], Some tt).

Definition lift {A} (o : option A) : Eff A := ([], o).

Definition calls {A} (m : Eff A) : list Event := fst m.

Definition completes {A} (m : Eff A) : bool :=
  match snd m with Some _ => true | None => false end.

Notation "x <- m ;; k" := (bind m (fun x => k))
  (at level 61, m at next level, right associativity).
Notation "m ;;; k" := (bind m (fun _ => k))
  (at level 61, right associativity).

(** ** Routing helper *)

Definition is_slash (c : ascii) : bool := Ascii.eqb c "/"%char.

Definition starts_with_slash (s : string) : bool :=
  match s with
  | String c _ => is_slash c
  | EmptyString => false
  end.

(** Modelled from the spec: [removeDoubleSlashes] is imported from
    ['../routing'], which is not among the sources.  The spec describes
    it as normalising a path "to collapse duplicate path separators":
    every run of ['/'] becomes a single ['/']. *)
Fixpoint removeDoubleSlashes (path : string) : string :=
  match path with
  | EmptyString => EmptyString
  | String c rest =>
      if is_slash c && starts_with_slash rest
      then removeDoubleSlashes rest
      else String c (removeDoubleSlashes rest)
  end.

(** ** getErrorMessage (useAuthState.ts, l.133-138) *)
Definition getErrorMessage (error defaultMessage : Js.value) : option Js.value :=
  if Js.typeof error =? "string" then Some error
  else if Js.typeof error =? "undefined" then Some defaultMessage
  else match Js.get error "message" with
       | None => None
       | Some m => if negb (Js.truthy m) then Some defaultMessage else Some m
       end.

(** ** Promises and the auth provider

    A promise is embedded by the way it settles.  [then_ p f] is
    [p.then(f)] for a callback that does not throw. *)
Inductive Settlement (A : Type) : Type :=
| Resolved (a : A)
| Rejected (reason : Js.value).

Arguments Resolved {A} a.
Arguments Rejected {A} reason.

Definition then_ {A B} (p : Settlement A) (f : A -> B) : Settlement B :=
  match p with
  | Resolved a => Resolved (f a)
  | Rejected reason => Rejected reason
  end.

(** [checkAuth(params): Promise<void>], the only method the hook calls. *)
Record AuthProvider : Type := { checkAuth : Js.value -> Settlement unit }.

(** The query function (l.65-68):
    [authProvider?.checkAuth(params).then(() => true)], which is
    [undefined] ([None]) when there is no auth provider. *)
Definition queryFn (authProvider : option AuthProvider) (params : Js.value)
  : option (Settlement bool) :=
  match authProvider with
  | Some provider => Some (then_ (checkAuth provider params) (fun _ => true))
  | None => None
  end.

(** ** The result of useQuery

    The three fields of the result object that the hook reads.
    [data] is [boolean | undefined]; [error] is [null] when the query
    has not failed. *)
Module Query.

Record result : Type :=
  { data : option bool; isLoading : bool; error : Js.value }.

End Query.

(** One resolution cycle of the query: the call is outstanding, then
    it settles once ([retry: false]). *)
Inductive QueryPhase : Type :=
| Outstanding
| Settled (outcome : Settlement bool).

(** Modelled from the spec: [useQuery] belongs to TanStack Query, which
    is not among the sources.  The spec (3, 4.1) describes one
    resolution cycle, pending then settled once; this is what the
    library reports for the first fetch of a query: no data and
    [isLoading] while the query function's promise is outstanding; the
    resolved value as [data] after a resolution; the rejection reason
    as [error], and still no data, after a rejection.  The results of
    later fetches of the same query are those of [QueryCache] below. *)
Definition useQuery (phase : QueryPhase) : Query.result :=
  match phase with
  | Outstanding =>
      {| Query.data := None; Query.isLoading := true; Query.error := Js.Null |}
  | Settled (Resolved d) =>
      {| Query.data := Some d; Query.isLoading := false; Query.error := Js.Null |}
  | Settled (Rejected reason) =>
      {| Query.data := None; Query.isLoading := false; Query.error := reason |}
  end.

(** ** The query across fetches

    Modelled from the spec: the spec (5) leaves result caching to the
    data-fetching library, TanStack Query (v5), which is not among the
    sources.  This is the state the library keeps for one query key and
    the result its observer derives from it, after the library's
    documented behaviour:
    - a fetch that starts while the query has no data resets the error
      to [null] and the status to pending; one that starts while it has
      data leaves data, error and status as they are;
    - a resolution stores the value, clears the error, status success;
    - a rejection stores the reason, status error, and keeps the data;
    - [isLoading] is [isFetching && isPending]. *)
Module QueryCache.

Inductive Status : Type := Pending | Success | Error.

Record t : Type :=
  { data : option bool; error : Js.value; status : Status; fetching : bool }.

(** The query before its first fetch. *)
Definition initial : t :=
  {| data := None; error := Js.Null; status := Pending; fetching := false |}.

Definition fetch (c : t) : t :=
  match data c with
  | None =>
      {| data := None; error := Js.Null; status := Pending; fetching := true |}
  | Some _ =>
      {| data := data c; error := error c; status := status c; fetching := true |}
  end.

Definition settle (c : t) (outcome : Settlement bool) : t :=
  match outcome with
  | Resolved d =>
      {| data := Some d; error := Js.Null; status := Success; fetching := false |}
  | Rejected reason =>
      {| data := data c; error := reason; status := Error; fetching := false |}
  end.

Definition is_pending (s : Status) : bool :=
  match s with Pending => true | _ => false end.

Definition observe (c : t) : Query.result :=
  {| Query.data := data c;
     Query.isLoading := fetching c && is_pending (status c);
     Query.error := error c |}.

End QueryCache.

(** What happens to the query between two renders: a fetch starts (on
    mount, or a refetch), the outstanding [checkAuth] call settles, or
    nothing.  The query function turns a resolution into [true]
    (l.67). *)
Inductive QueryEvent : Type :=
| Fetch
| Settle (check : Settlement unit)
| Idle.

Definition query_step (c : QueryCache.t) (ev : QueryEvent) : QueryCache.t :=
  match ev with
  | Fetch => QueryCache.fetch c
  | Settle check => QueryCache.settle c (then_ check (fun _ => true))
  | Idle => c
  end.

Definition replay (c : QueryCache.t) (history : list QueryEvent) : QueryCache.t :=
  fold_left query_step history c.

(** A [checkAuth] call of the history resolved. *)
Definition is_resolution (ev : QueryEvent) : bool :=
  match ev with
  | Settle (Resolved _) => true
  | _ => false
  end.

Definition resolved (history : list QueryEvent) : bool :=
  existsb is_resolution history.

(** ** What the hook receives on a render *)

(** The values of [useAuthProvider()], [useLogout()], [useBasename()]
    and [useNotify()] (l.57-60). *)
Record Hooks : Type :=
  { authProvider : option AuthProvider;
    logout : FnId;
    basename : string;
    notify : FnId }.

(** [UseAuthStateOptions] (l.123-129): the two callbacks; the other
    options are handed on to [useQuery]. *)
Record UseAuthStateOptions : Type :=
  { onSuccess : option FnId; onError : option FnId }.

Record Args : Type :=
  { hooks : Hooks;
    params : Js.value;
    logoutOnFailure : bool;
    queryOptions : UseAuthStateOptions }.

(** [defaultAuthParams] of ['./useAuthProvider'], of which the hook
    reads [loginUrl]. *)
Record AuthParams : Type := { loginUrl : string }.

(** The returned object (l.112-119). *)
Record State : Type :=
  { authenticated : bool; isLoading : bool; error : Js.value }.

(** ** Dependency arrays

    [useEffect(body, deps)] runs [body] after the first render and
    after every render whose [deps] differ, by [Object.is], from those
    of the render before. *)
Record SuccessDeps : Type :=
  { dep_onSuccess : option FnId; dep_data : option bool }.

Record ErrorDeps : Type :=
  { dep_basename : string;
    dep_logout : FnId;
    dep_logoutOnFailure : bool;
    dep_notify : FnId;
    dep_onError : option FnId;
    dep_error : Js.value }.

Record HookState : Type :=
  { successDeps : option SuccessDeps; errorDeps : option ErrorDeps }.

(** The hook state of a component that has not rendered yet. *)
Definition mount : HookState := {| successDeps := None; errorDeps := None |}.

Definition same_fn (f g : option FnId) : bool :=
  match f, g with
  | Some a, Some b => Nat.eqb a b
  | None, None => true
  | _, _ => false
  end.

Definition same_data (a b : option bool) : bool :=
  match a, b with
  | Some x, Some y => Bool.eqb x y
  | None, None => true
  | _, _ => false
  end.

Definition same_successDeps (a b : SuccessDeps) : bool :=
  same_fn (dep_onSuccess a) (dep_onSuccess b)
  && same_data (dep_data a) (dep_data b).

Definition same_errorDeps (a b : ErrorDeps) : bool :=
  (dep_basename a =? dep_basename b)
  && Nat.eqb (dep_logout a) (dep_logout b)
  && Bool.eqb (dep_logoutOnFailure a) (dep_logoutOnFailure b)
  && Nat.eqb (dep_notify a) (dep_notify b)
  && same_fn (dep_onError a) (dep_onError b)
  && Js.same (dep_error a) (dep_error b).

Definition useEffect {D : Type} (same : D -> D -> bool)
  (previous : option D) (deps : D) (body : Eff unit) : Eff unit * option D :=
  match previous with
  | None => (body, Some deps)
  | Some before =>
      if same before deps then (ret tt, Some deps) else (body, Some deps)
  end.

(** ** The hook *)

(** [a && b] yields [a] when [a] is falsy and does not evaluate [b]. *)
Definition js_and (a : Js.value) (b : Eff Js.value) : Eff Js.value :=
  if Js.truthy a then b else ret a.

(** The returned object (l.111-120).  [??] binds tighter than [? :], so
    the expression is
    [(result.data ?? result.isLoading) ? true : (authProvider == null)]. *)
Definition nullish (a : option bool) (b : bool) : bool :=
  match a with
  | Some v => v
  | None => b
  end.

Definition eq_null {A} (a : option A) : bool :=
  match a with
  | Some _ => false
  | None => true
  end.

Definition authState (authProvider : option AuthProvider)
  (result : Query.result) : State :=
  {| authenticated :=
       if nullish (Query.data result) (Query.isLoading result)
       then true
       else eq_null authProvider;
     isLoading := Query.isLoading result;
     error := Query.error result |}.

(** The body of the first effect (l.74-76). *)
Definition successEffect (onSuccess : option FnId) (data : option bool)
  : Eff unit :=
  match data, onSuccess with
  | Some d, Some callback =>
      if d then emit (EvOnSuccess callback d) else ret tt
  | _, _ => ret tt
  end.

Section WithDefaultAuthParams.

(** ['./useAuthProvider'] is not among the sources: its constant
    [defaultAuthParams] is a parameter of the development. *)
Variable defaultAuthParams : AuthParams.

(** The body of the second effect (l.80-108). *)
Definition errorEffect (basename : string) (logoutOnFailure : bool)
  (onError : option FnId) (error : Js.value) : Eff unit :=
  if Js.truthy error then
    match onError with
    | Some callback => emit (EvOnError callback error)
    | None =>
        let loginUrl :=
          removeDoubleSlashes
            (basename ++ "/" ++ loginUrl defaultAuthParams) in
        if logoutOnFailure then
          redirects <-
            js_and error
              (r <- lift (Js.get error "redirectTo") ;;
               ret (Js.Bool (Js.neq_null r))) ;;
          target <-
            (if Js.truthy redirects
             then lift (Js.get error "redirectTo")
             else ret (Js.Str loginUrl)) ;;
          emit (EvLogout [] target) ;;;
          shouldSkipNotify <-
            js_and error
              (m <- lift (Js.get error "message") ;;
               ret (Js.Bool (Js.strict_eq_false m))) ;;
          if negb (Js.truthy shouldSkipNotify) then
            message <-
              lift (getErrorMessage error (Js.Str "ra.auth.auth_check_error")) ;;
            emit (EvNotify message [("type", Js.Str "error")])
          else ret tt
        else ret tt
    end
  else ret tt.

(** One render: the returned state, the calls made by the effects that
    ran after it, and the hook state left for the next render.
    [result] is what [useQuery] (l.63-71) returned on this render.
    [useMemo] (l.111, 120) returns what its callback computes from its
    dependencies [authProvider] and [result]. *)
Record Render : Type :=
  { state : State; effects : Eff unit; next : HookState }.

Definition events (r : Render) : list Event := calls (effects r).

Definition useAuthState (hs : HookState) (a : Args) (result : Query.result)
  : Render :=
  let authProvider := authProvider (hooks a) in
  let logout := logout (hooks a) in
  let basename := basename (hooks a) in
  let notify := notify (hooks a) in
  let onSuccess := onSuccess (queryOptions a) in
  let onError := onError (queryOptions a) in
  let '(first, successDeps') :=
    useEffect same_successDeps (successDeps hs)
      {| dep_onSuccess := onSuccess; dep_data := Query.data result |}
      (successEffect onSuccess (Query.data result)) in
  let '(second, errorDeps') :=
    useEffect same_errorDeps (errorDeps hs)
      {| dep_basename := basename;
         dep_logout := logout;
         dep_logoutOnFailure := logoutOnFailure a;
         dep_notify := notify;
         dep_onError := onError;
         dep_error := Query.error result |}
      (errorEffect basename (logoutOnFailure a) onError (Query.error result)) in
  {| state := authState authProvider result;
     effects := first ;;; second;
     next := {| successDeps := successDeps'; errorDeps := errorDeps' |} |}.

(** Successive renders of one mounted component. *)
Fixpoint run (hs : HookState) (renders : list (Args * Query.result))
  : list Render * HookState :=
  match renders with
  | [] => ([], hs)
  | (a, result) :: rest =>
      let r := useAuthState hs a result in
      let '(rs, hs') := run (next r) rest in
      (r :: rs, hs')
  end.

Definition trace (rs : list Render) : list Event :=
  concat (map events rs).

End WithDefaultAuthParams.

(** Renders that all see the call outstanding. *)
Definition while_outstanding (renders : list Args)
  : list (Args * Query.result) :=
  map (fun a => (a, useQuery Outstanding)) renders.

(** ** The spec's AuthError

    [{ message: string | false | undefined, redirectTo?: string }],
    as the object the provider rejects with. *)
Inductive AuthMessage : Type :=
| MsgString (s : string)
| MsgFalse
| MsgUndefined.

Record AuthError : Type :=
  { message : AuthMessage; redirectTo : option string }.

Definition AuthError_fields (e : AuthError) : list (string * Js.value) :=
  match message e with
  | MsgString s => [("message", Js.Str s)]
  | MsgFalse => [("message", Js.Bool false)]
  | MsgUndefined => []
  end
  ++
  match redirectTo e with
  | Some url => [("redirectTo", Js.Str url)]
  | None => []
  end.

Definition AuthError_js (ref : nat) (e : AuthError) : Js.value :=
  Js.Obj ref (AuthError_fields e).

(** Selections of a trace. *)
Definition is_onSuccess (e : Event) : bool :=
  match e with EvOnSuccess _ _ => true | _ => false end.

Definition onSuccess_calls (evs : list Event) : list Event :=
  filter is_onSuccess evs.

Definition is_logout (e : Event) : bool :=
  match e with EvLogout _ _ => true | _ => false end.

Definition is_notify (e : Event) : bool :=
  match e with EvNotify _ _ => true | _ => false end.

Definition logout_calls (evs : list Event) : list Event := filter is_logout evs.

Definition notify_calls (evs : list Event) : list Event := filter is_notify evs.

Fixpoint has_double_slash (s : string) : bool :=
  match s with
  | EmptyString => false
  | String c rest =>
      (is_slash c && starts_with_slash rest) || has_double_slash rest
  end.

(** The hook state has not seen a settled query: the data and the error
    recorded by the dependency arrays, if any, are [undefined] and
    [null]. *)
Definition unsettled (hs : HookState) : Prop :=
  match successDeps hs with
  | Some d => dep_data d = None
  | None => True
  end
  /\
  match errorDeps hs with
  | Some d => dep_error d = Js.Null
  | None => True
  end.

(** The calls the spec expects of the default failure policy: the
    redirect target of [logout] and the notification, if any. *)
Definition default_loginUrl (dap : AuthParams) (bn : string) : string :=
  removeDoubleSlashes (bn ++ "/" ++ loginUrl dap).

Definition redirectTarget (dap : AuthParams) (bn : string) (e : AuthError)
  : Js.value :=
  match redirectTo e with
  | Some url => Js.Str url
  | None => Js.Str (default_loginUrl dap bn)
  end.

Definition notification (e : AuthError) : list Event :=
  match message e with
  | MsgFalse => []
  | MsgString s =>
      [EvNotify (Js.Str (if s =? "" then "ra.auth.auth_check_error" else s))
         [("type", Js.Str "error")]]
  | MsgUndefined =>
      [EvNotify (Js.Str "ra.auth.auth_check_error") [("type", Js.Str "error")]]
  end.

(** [message === false], on the spec's AuthError. *)
Definition suppresses_notification (e : AuthError) : bool :=
  match message e with
  | MsgFalse => true
  | _ => false
  end.

(** Renders that all see the query settled with [outcome]. *)
Definition once_settled (outcome : Settlement bool) (renders : list Args)
  : list (Args * Query.result) :=
  map (fun a => (a, useQuery (Settled outcome))) renders.

(** The first effect has run for the datum [true] with the callback
    [f]: what its dependency array holds once a success was seen. *)
Definition settled_with (f : FnId) (hs : HookState) : Prop :=
  successDeps hs = Some {| dep_onSuccess := Some f; dep_data := Some true |}.

Definition authenticated_state (r : State) : Prop :=
  isLoading r = false /\ authenticated r = true.

(** The dependency arrays of a render (l.77, l.109). *)
Definition successDeps_of (a : Args) (result : Query.result) : SuccessDeps :=
  {| dep_onSuccess := onSuccess (queryOptions a);
     dep_data := Query.data result |}.

Definition errorDeps_of (a : Args) (result : Query.result) : ErrorDeps :=
  {| dep_basename := basename (hooks a);
     dep_logout := logout (hooks a);
     dep_logoutOnFailure := logoutOnFailure a;
     dep_notify := notify (hooks a);
     dep_onError := onError (queryOptions a);
     dep_error := Query.error result |}.

(** The error is not the one the second effect last ran for. *)
Definition error_is_new (hs : HookState) (err : Js.value) : bool :=
  match errorDeps hs with
  | Some d => negb (Js.same (dep_error d) err)
  | None => true
  end.

Definition is_onError (e : Event) : bool :=
  match e with EvOnError _ _ => true | _ => false end.

Definition onError_calls (evs : list Event) : list Event :=
  filter is_onError evs.

(** The two effects of a render, as [useEffect] lets them run. *)
Definition first_effect (hs : HookState) (a : Args) (result : Query.result)
  : Eff unit :=
  fst (useEffect same_successDeps (successDeps hs) (successDeps_of a result)
         (successEffect (onSuccess (queryOptions a)) (Query.data result))).

Definition second_effect (dap : AuthParams) (hs : HookState) (a : Args)
  (result : Query.result) : Eff unit :=
  fst (useEffect same_errorDeps (errorDeps hs) (errorDeps_of a result)
         (errorEffect dap (basename (hooks a)) (logoutOnFailure a)
            (onError (queryOptions a)) (Query.error result))).



(** The query holds the datum of a successful check. *)
Definition holds_true (c : QueryCache.t) : Prop :=
  QueryCache.data c = Some true
  /\ QueryCache.status c <> QueryCache.Pending.

(** * Properties *)

(** ** The monad *)

Lemma calls_bind_ret {A} (m : Eff A) : calls (ret tt ;;; m) = calls m.
Proof. destruct m as [evs r]. reflexivity. Qed.

Lemma calls_bind_nil {A B} (m : Eff A) (k : Eff B) :
  calls m = [] -> completes m = true -> calls (m ;;; k) = calls k.
Proof.
  destruct m as [evs [a|]]; destruct k as [evs' r]; cbn; intros H1 H2;
    try discriminate; subst; reflexivity.
Qed.

Lemma calls_bind {A B} (m : Eff A) (k : Eff B) :
  calls (m ;;; k) = calls m ++ (if completes m then calls k else []).
Proof.
  destruct m as [evs [a|]]; destruct k as [evs' r]; cbn;
    [reflexivity|now rewrite app_nil_r].
Qed.

(** ** removeDoubleSlashes *)

Lemma starts_with_slash_removeDoubleSlashes s :
  starts_with_slash (removeDoubleSlashes s) = starts_with_slash s.
Proof.
  induction s as [|c rest IH]; cbn; [reflexivity|].
  destruct (is_slash c) eqn:Hc; cbn; [|exact Hc].
  destruct (starts_with_slash rest) eqn:Hr; cbn; [|exact Hc].
  now rewrite IH.
Qed.

Lemma removeDoubleSlashes_collapsed s :
  has_double_slash (removeDoubleSlashes s) = false.
Proof.
  induction s as [|c rest IH]; cbn; [reflexivity|].
  destruct (is_slash c && starts_with_slash rest) eqn:H; cbn; [exact IH|].
  now rewrite starts_with_slash_removeDoubleSlashes, H, IH.
Qed.

(** ** The effect bodies *)

Section EffectBodies.

Variable dap : AuthParams.

(** The guarded property reads of the second effect never raise. *)
Lemma errorEffect_completes bn lof onErr err :
  completes (errorEffect dap bn lof onErr err) = true.
Proof.
  unfold errorEffect.
  destruct (Js.truthy err) eqn:Ht; [|reflexivity].
  destruct onErr as [f|]; [reflexivity|].
  destruct lof; [|reflexivity].
  destruct err as [| |b|s|ref fields]; try discriminate.
  - cbn in Ht; subst b; cbn. reflexivity.
  - unfold js_and; rewrite Ht. cbn.
    unfold getErrorMessage, js_and; cbn. reflexivity.
  - unfold js_and; cbn.
    destruct (Js.neq_null (Js.lookup "redirectTo" fields)); cbn;
      destruct (Js.strict_eq_false (Js.lookup "message" fields)); cbn;
      try reflexivity;
      unfold getErrorMessage; cbn;
      destruct (Js.truthy (Js.lookup "message" fields)); reflexivity.
Qed.

Lemma errorEffect_onError bn lof f err :
  Js.truthy err = true ->
  errorEffect dap bn lof (Some f) err = emit (EvOnError f err).
Proof. intros Ht. unfold errorEffect. now rewrite Ht. Qed.

Lemma errorEffect_idle bn err :
  errorEffect dap bn false None err = ret tt.
Proof. unfold errorEffect. now destruct (Js.truthy err). Qed.

Lemma errorEffect_logout bn ref e :
  errorEffect dap bn true None (AuthError_js ref e)
  = (EvLogout [] (redirectTarget dap bn e) :: notification e, Some tt).
Proof.
  destruct e as [[s| |] [url|]]; cbn; try reflexivity;
    unfold getErrorMessage, notification; cbn;
    destruct (s =? ""); reflexivity.
Qed.

(** ** One render *)

Lemma state_useAuthState hs a result :
  state (useAuthState dap hs a result) = authState (authProvider (hooks a)) result.
Proof.
  unfold useAuthState, useEffect.
  destruct (successDeps hs) as [d|]; [destruct (same_successDeps d _)|];
    (destruct (errorDeps hs) as [d'|]; [destruct (same_errorDeps d' _)|]);
    reflexivity.
Qed.

Lemma same_Null_truthy err : Js.truthy err = true -> Js.same Js.Null err = false.
Proof. destruct err; cbn; congruence. Qed.

(** A render that sees no data makes no [onSuccess] call; its calls are
    those of the second effect, if that one runs. *)
Lemma events_no_data hs a loading err :
  let result := {| Query.data := None; Query.isLoading := loading; Query.error := err |} in
  events (useAuthState dap hs a result) = []
  \/ events (useAuthState dap hs a result)
     = calls (errorEffect dap (basename (hooks a)) (logoutOnFailure a)
                (onError (queryOptions a)) err).
Proof.
  cbn zeta. unfold useAuthState, useEffect, events.
  assert (Hs : forall o, successEffect o None = ret tt) by (now intros [f|]).
  destruct (successDeps hs) as [d|]; [destruct (same_successDeps d _)|];
    (destruct (errorDeps hs) as [d'|]; [destruct (same_errorDeps d' _)|]);
    cbn [effects Query.data Query.error]; rewrite ?Hs, ?calls_bind_ret; auto.
Qed.

(** The render that first sees a rejection runs the second effect. *)
Lemma events_first_failure hs a err :
  unsettled hs -> Js.truthy err = true ->
  events (useAuthState dap hs a (useQuery (Settled (Rejected err))))
  = calls (errorEffect dap (basename (hooks a)) (logoutOnFailure a)
             (onError (queryOptions a)) err).
Proof.
  intros [_ He] Ht. unfold useAuthState, useEffect, events.
  cbn [useQuery Query.data Query.error].
  assert (Hs : forall o, successEffect o None = ret tt) by (now intros [f|]).
  assert (Hrun : forall d, dep_error d = Js.Null ->
            same_errorDeps d
              {| dep_basename := basename (hooks a);
                 dep_logout := logout (hooks a);
                 dep_logoutOnFailure := logoutOnFailure a;
                 dep_notify := notify (hooks a);
                 dep_onError := onError (queryOptions a);
                 dep_error := err |} = false).
  { intros d Hd. unfold same_errorDeps; cbn.
    rewrite Hd, (same_Null_truthy _ Ht). apply andb_false_r. }
  destruct (successDeps hs) as [d|]; [destruct (same_successDeps d _)|];
    (destruct (errorDeps hs) as [d'|]; [rewrite (Hrun d' He)|]);
    cbn [effects]; rewrite ?Hs, ?calls_bind_ret; reflexivity.
Qed.

(** ** Renders while the call is outstanding *)

Lemma outstanding_render hs a :
  unsettled hs ->
  events (useAuthState dap hs a (useQuery Outstanding)) = []
  /\ unsettled (next (useAuthState dap hs a (useQuery Outstanding))).
Proof.
  intros Hu. split.
  - unfold useQuery.
    destruct (events_no_data hs a true Js.Null) as [H|H]; cbn zeta in H;
      rewrite H; reflexivity.
  - unfold useAuthState, useEffect, unsettled; cbn.
    destruct (successDeps hs) as [d|]; [destruct (same_successDeps d _)|];
      (destruct (errorDeps hs) as [d'|]; [destruct (same_errorDeps d' _)|]);
      cbn; auto.
Qed.

Lemma run_cons hs a result rest :
  run dap hs ((a, result) :: rest)
  = (useAuthState dap hs a result
       :: fst (run dap (next (useAuthState dap hs a result)) rest),
     snd (run dap (next (useAuthState dap hs a result)) rest)).
Proof. cbn [run]. now destruct (run dap _ rest). Qed.

Lemma trace_cons (r : Render) rs : trace (r :: rs) = events r ++ trace rs.
Proof. reflexivity. Qed.

Lemma run_while_outstanding pre : forall hs,
  unsettled hs ->
  trace (fst (run dap hs (while_outstanding pre))) = []
  /\ unsettled (snd (run dap hs (while_outstanding pre))).
Proof.
  induction pre as [|a pre IH]; intros hs Hu; [now split|].
  destruct (outstanding_render a Hu) as [Hev Hnext].
  unfold while_outstanding; cbn [map]; fold (while_outstanding pre).
  rewrite run_cons; cbn [fst snd]. rewrite trace_cons, Hev.
  exact (IH _ Hnext).
Qed.

Lemma unsettled_mount : unsettled mount.
Proof. split; exact I. Qed.

(** ** The [onSuccess] calls of a render *)

Lemma errorEffect_no_onSuccess bn lof onErr err :
  onSuccess_calls (calls (errorEffect dap bn lof onErr err)) = [].
Proof.
  unfold errorEffect.
  destruct (Js.truthy err) eqn:Ht; [|reflexivity].
  destruct onErr as [f|]; [reflexivity|].
  destruct lof; [|reflexivity].
  destruct err as [| |b|s|ref fields]; try discriminate.
  - cbn in Ht; subst b; reflexivity.
  - unfold js_and; rewrite Ht. reflexivity.
  - unfold js_and; cbn.
    destruct (Js.neq_null (Js.lookup "redirectTo" fields)); cbn;
      destruct (Js.strict_eq_false (Js.lookup "message" fields)); cbn;
      try reflexivity;
      unfold getErrorMessage; cbn;
      destruct (Js.truthy (Js.lookup "message" fields)); reflexivity.
Qed.

Lemma successEffect_payload o data f d :
  In (EvOnSuccess f d) (calls (successEffect o data)) -> d = true.
Proof.
  destruct data as [[|]|], o as [g|]; cbn; try tauto.
  intros [H|[]]. now inversion H.
Qed.

Lemma useEffect_body {D} (same : D -> D -> bool) previous deps body :
  fst (useEffect same previous deps body) = body
  \/ fst (useEffect same previous deps body) = ret tt.
Proof.
  unfold useEffect. destruct previous as [d|]; [destruct (same d deps)|]; auto.
Qed.

Lemma effects_useAuthState hs a result :
  effects (useAuthState dap hs a result)
  = fst (useEffect same_successDeps (successDeps hs)
           {| dep_onSuccess := onSuccess (queryOptions a);
              dep_data := Query.data result |}
           (successEffect (onSuccess (queryOptions a)) (Query.data result)))
    ;;;
    fst (useEffect same_errorDeps (errorDeps hs)
           {| dep_basename := basename (hooks a);
              dep_logout := logout (hooks a);
              dep_logoutOnFailure := logoutOnFailure a;
              dep_notify := notify (hooks a);
              dep_onError := onError (queryOptions a);
              dep_error := Query.error result |}
           (errorEffect dap (basename (hooks a)) (logoutOnFailure a)
              (onError (queryOptions a)) (Query.error result))).
Proof.
  unfold useAuthState.
  destruct (useEffect same_successDeps _ _ _), (useEffect same_errorDeps _ _ _).
  reflexivity.
Qed.

Lemma next_useAuthState hs a result :
  next (useAuthState dap hs a result)
  = {| successDeps :=
         Some {| dep_onSuccess := onSuccess (queryOptions a);
                 dep_data := Query.data result |};
       errorDeps :=
         Some {| dep_basename := basename (hooks a);
                 dep_logout := logout (hooks a);
                 dep_logoutOnFailure := logoutOnFailure a;
                 dep_notify := notify (hooks a);
                 dep_onError := onError (queryOptions a);
                 dep_error := Query.error result |} |}.
Proof.
  unfold useAuthState, useEffect.
  destruct (successDeps hs) as [d|]; [destruct (same_successDeps d _)|];
    (destruct (errorDeps hs) as [d'|]; [destruct (same_errorDeps d' _)|]);
    reflexivity.
Qed.

Lemma In_onSuccess_calls f d evs :
  In (EvOnSuccess f d) evs <-> In (EvOnSuccess f d) (onSuccess_calls evs).
Proof.
  unfold onSuccess_calls. rewrite filter_In. cbn. tauto.
Qed.

Lemma render_payload hs a result f d :
  In (EvOnSuccess f d) (events (useAuthState dap hs a result)) -> d = true.
Proof.
  unfold events. rewrite effects_useAuthState, calls_bind, in_app_iff.
  intros [H|H].
  - destruct (useEffect_body same_successDeps (successDeps hs)
                {| dep_onSuccess := onSuccess (queryOptions a);
                   dep_data := Query.data result |}
                (successEffect (onSuccess (queryOptions a)) (Query.data result)))
      as [E|E]; rewrite E in H; [|destruct H].
    exact (successEffect_payload _ _ _ _ H).
  - destruct (completes _); [|destruct H].
    destruct (useEffect_body same_errorDeps (errorDeps hs)
                {| dep_basename := basename (hooks a);
                   dep_logout := logout (hooks a);
                   dep_logoutOnFailure := logoutOnFailure a;
                   dep_notify := notify (hooks a);
                   dep_onError := onError (queryOptions a);
                   dep_error := Query.error result |}
                (errorEffect dap (basename (hooks a)) (logoutOnFailure a)
                   (onError (queryOptions a)) (Query.error result)))
      as [E|E]; rewrite E in H; [|destruct H].
    apply In_onSuccess_calls in H.
    rewrite errorEffect_no_onSuccess in H. destruct H.
Qed.

Lemma run_payload renders : forall hs f d,
  In (EvOnSuccess f d) (trace (fst (run dap hs renders))) -> d = true.
Proof.
  induction renders as [|[a result] rest IH]; intros hs f d; [intros []|].
  rewrite run_cons; cbn [fst]. rewrite trace_cons, in_app_iff.
  intros [H|H]; [exact (render_payload _ _ _ _ _ H)|exact (IH _ _ _ H)].
Qed.

(** ** Renders after a success *)


Lemma trace_app (rs rs' : list Render) : trace (rs ++ rs') = trace rs ++ trace rs'.
Proof. unfold trace. now rewrite map_app, concat_app. Qed.


Lemma success_first_render hs a f :
  unsettled hs -> onSuccess (queryOptions a) = Some f ->
  events (useAuthState dap hs a (useQuery (Settled (Resolved true))))
  = [EvOnSuccess f true].
Proof.
  intros [Hd _] Hf. unfold events. rewrite effects_useAuthState, calls_bind.
  cbn [useQuery Query.data Query.error]. rewrite Hf.
  replace (fst (useEffect same_successDeps (successDeps hs) _ _))
    with (emit (EvOnSuccess f true)).
  - cbn [completes emit snd calls fst app].
    destruct (useEffect_body same_errorDeps (errorDeps hs)
                {| dep_basename := basename (hooks a);
                   dep_logout := logout (hooks a);
                   dep_logoutOnFailure := logoutOnFailure a;
                   dep_notify := notify (hooks a);
                   dep_onError := onError (queryOptions a);
                   dep_error := Js.Null |}
                (errorEffect dap (basename (hooks a)) (logoutOnFailure a)
                   (onError (queryOptions a)) Js.Null))
      as [E|E]; rewrite E; reflexivity.
  - unfold useEffect. destruct (successDeps hs) as [d|]; [|reflexivity].
    unfold same_successDeps; cbn. rewrite Hd. cbn. now rewrite andb_false_r.
Qed.

Lemma success_later_render hs a f :
  settled_with f hs -> onSuccess (queryOptions a) = Some f ->
  events (useAuthState dap hs a (useQuery (Settled (Resolved true)))) = [].
Proof.
  intros Hs Hf. unfold events. rewrite effects_useAuthState, calls_bind.
  cbn [useQuery Query.data Query.error]. rewrite Hf, Hs.
  unfold useEffect at 1 2. unfold same_successDeps; cbn [dep_onSuccess dep_data same_fn same_data].
  rewrite Nat.eqb_refl. cbn [andb Bool.eqb fst completes ret snd calls app].
  destruct (useEffect_body same_errorDeps (errorDeps hs)
              {| dep_basename := basename (hooks a);
                 dep_logout := logout (hooks a);
                 dep_logoutOnFailure := logoutOnFailure a;
                 dep_notify := notify (hooks a);
                 dep_onError := onError (queryOptions a);
                 dep_error := Js.Null |}
              (errorEffect dap (basename (hooks a)) (logoutOnFailure a)
                 (onError (queryOptions a)) Js.Null))
    as [E|E]; rewrite E; reflexivity.
Qed.

Lemma settled_with_next hs a f :
  onSuccess (queryOptions a) = Some f ->
  settled_with f (next (useAuthState dap hs a (useQuery (Settled (Resolved true))))).
Proof.
  intros Hf. rewrite next_useAuthState. unfold settled_with; cbn. now rewrite Hf.
Qed.

Lemma run_once_settled f post : forall hs,
  settled_with f hs ->
  Forall (fun b => onSuccess (queryOptions b) = Some f) post ->
  trace (fst (run dap hs (once_settled (Resolved true) post))) = [].
Proof.
  induction post as [|a post IH]; intros hs Hs Hall; [reflexivity|].
  inversion Hall as [|? ? Hf Hrest]; subst.
  unfold once_settled; cbn [map]; fold (once_settled (Resolved true) post).
  rewrite run_cons; cbn [fst]. rewrite trace_cons.
  rewrite (success_later_render _ Hs Hf).
  exact (IH _ (settled_with_next hs _ Hf) Hrest).
Qed.

Lemma states_once_settled l : forall hs,
  Forall (fun r => authenticated_state (state r))
    (fst (run dap hs (once_settled (Resolved true) l))).
Proof.
  induction l as [|a l IH]; intros hs; [constructor|].
  unfold once_settled; cbn [map]; fold (once_settled (Resolved true) l).
  rewrite run_cons; cbn [fst]. constructor; [|apply IH].
  rewrite state_useAuthState. split; reflexivity.
Qed.

End EffectBodies.

(** The render that follows renders with the call outstanding, or the
    mount, and sees a rejection with an object: its calls are those of
    the body of the second effect. *)
Ltac first_failure :=
  rewrite events_first_failure;
  [|apply run_while_outstanding, unsettled_mount|reflexivity].

(** ** The returned state *)

(** *** The query across fetches *)

Lemma useQuery_first_fetch :
  useQuery Outstanding = QueryCache.observe (QueryCache.fetch QueryCache.initial)
  /\ forall outcome,
       useQuery (Settled outcome)
       = QueryCache.observe
           (QueryCache.settle (QueryCache.fetch QueryCache.initial) outcome).
Proof. split; [reflexivity|]. now intros [d|reason]. Qed.


Lemma query_step_holds_true c ev : holds_true c -> holds_true (query_step c ev).
Proof.
  intros [Hd Hs]. destruct ev as [|[[]|reason]|]; unfold holds_true; cbn.
  - unfold QueryCache.fetch. rewrite Hd. now split.
  - split; [reflexivity|discriminate].
  - split; [exact Hd|discriminate].
  - now split.
Qed.

Lemma query_step_no_data c ev :
  QueryCache.data c = None -> is_resolution ev = false ->
  QueryCache.data (query_step c ev) = None.
Proof.
  intros Hd Hev. destruct ev as [|[[]|reason]|]; cbn; try discriminate;
    try exact Hd.
  unfold QueryCache.fetch. now rewrite Hd.
Qed.

Lemma query_step_resolution c ev :
  is_resolution ev = true -> holds_true (query_step c ev).
Proof.
  destruct ev as [|[[]|reason]|]; try discriminate. intros _.
  split; [reflexivity|discriminate].
Qed.

Lemma replay_holds_true history : forall c,
  holds_true c -> holds_true (replay c history).
Proof.
  induction history as [|ev history IH]; intros c Hc; [exact Hc|].
  apply IH, query_step_holds_true, Hc.
Qed.

(** The query holds data exactly when one of its checks has resolved,
    and the datum is then [true]. *)
Lemma replay_initial history : forall c,
  QueryCache.data c = None ->
  if resolved history
  then holds_true (replay c history)
  else QueryCache.data (replay c history) = None.
Proof.
  induction history as [|ev history IH]; intros c Hc; [exact Hc|].
  cbn [resolved existsb replay fold_left].
  destruct (is_resolution ev) eqn:Hev; cbn [orb].
  - apply replay_holds_true, query_step_resolution, Hev.
  - apply IH, query_step_no_data; assumption.
Qed.

(** *** The state after a failure and during a call *)




(** C2.  Without an auth provider the returned state has
    [authenticated === true] for every result of the query, hence in
    every phase (outstanding, succeeded, failed), for every params. *)
Theorem no_provider_is_authenticated dap hs a result :
  authProvider (hooks a) = None ->
  authenticated (state (useAuthState dap hs a result)) = true.
Proof.
  intros Hnone. rewrite state_useAuthState, Hnone. unfold authState; cbn.
  now destruct (nullish _ _).
Qed.

Lemma no_provider_is_authenticated_witness :
  authenticated
    (state (useAuthState {| loginUrl := "/login" |} mount
              {| hooks := {| authProvider := None; logout := 1;
                             basename := ""; notify := 2 |};
                 params := Js.Undefined;
                 logoutOnFailure := true;
                 queryOptions := {| onSuccess := None; onError := None |} |}
              (useQuery (Settled (Rejected (Js.Str "no session"))))))
  = true.
Proof.
  apply (@no_provider_is_authenticated {| loginUrl := "/login" |} mount
           {| hooks := {| authProvider := None; logout := 1;
                          basename := ""; notify := 2 |};
              params := Js.Undefined;
              logoutOnFailure := true;
              queryOptions := {| onSuccess := None; onError := None |} |}).
  reflexivity.
Defined.

(** C3, as the code has it.  While a [checkAuth] call is outstanding
    the returned state has [authenticated === true]; it has
    [isLoading === true] when no earlier check of the query had
    resolved, and [isLoading === false] otherwise, the query then
    holding data. *)
Theorem outstanding_check_state dap hs a history :
  let c := replay QueryCache.initial history in
  let st := state (useAuthState dap hs a (QueryCache.observe (QueryCache.fetch c))) in
  authenticated st = true /\ isLoading st = negb (resolved history).
Proof.
  intros c st. subst st. rewrite state_useAuthState.
  pose proof (replay_initial history QueryCache.initial eq_refl) as Hc.
  fold c in Hc. unfold authState, QueryCache.observe, QueryCache.fetch; cbn.
  destruct (resolved history).
  - destruct Hc as [Hd Hs]. rewrite Hd; cbn.
    split; [reflexivity|]. now destruct (QueryCache.status c).
  - rewrite Hc. split; reflexivity.
Qed.

(** C3, as stated, fails: a first check resolved, a refetch is
    outstanding; the render returns [isLoading === false]. *)
Lemma outstanding_refetch_is_not_loading :
  let a := {| hooks := {| authProvider := Some {| checkAuth := fun _ => Resolved tt |};
                          logout := 1; basename := "/admin"; notify := 2 |};
              params := Js.Obj 0 [];
              logoutOnFailure := false;
              queryOptions := {| onSuccess := None; onError := None |} |} in
  let c := replay QueryCache.initial [Fetch; Settle (Resolved tt)] in
  let st := state (useAuthState {| loginUrl := "/login" |} mount a
                     (QueryCache.observe (QueryCache.fetch c))) in
  QueryCache.fetching (QueryCache.fetch c) = true
  /\ isLoading st = false
  /\ authenticated st = true.
Proof. repeat split. Qed.

(** ** The failure policy *)

(** C4.  On a rejection with an AuthError, with [logoutOnFailure] and
    no [onError], the render that first sees the failure calls
    [logout] once, with context [{}] and with the error's [redirectTo]
    when it has one, otherwise with the default login URL
    [removeDoubleSlashes(basename + '/' + loginUrl)], which has no
    doubled separator; for the basename ['/admin'] and the login
    segment ['login'] or ['/login'] that URL is ['/admin/login']. *)
Theorem failure_logs_out dap pre h prm onS ref e :
  let a := {| hooks := h; params := prm; logoutOnFailure := true;
              queryOptions := {| onSuccess := onS; onError := None |} |} in
  let hs := snd (run dap mount (while_outstanding pre)) in
  let target :=
    match redirectTo e with
    | Some url => Js.Str url
    | None => Js.Str (removeDoubleSlashes (basename h ++ "/" ++ loginUrl dap))
    end in
  logout_calls
    (events (useAuthState dap hs a
               (useQuery (Settled (Rejected (AuthError_js ref e))))))
  = [EvLogout [] target]
  /\ has_double_slash (removeDoubleSlashes (basename h ++ "/" ++ loginUrl dap)) = false
  /\ removeDoubleSlashes ("/admin" ++ "/" ++ "login") = "/admin/login"
  /\ removeDoubleSlashes ("/admin" ++ "/" ++ "/login") = "/admin/login".
Proof.
  intros a hs target. split; [|split; [apply removeDoubleSlashes_collapsed|split; reflexivity]].
  first_failure.
  cbn [basename hooks logoutOnFailure onError queryOptions a].
  rewrite errorEffect_logout. unfold calls, logout_calls; cbn [fst filter is_logout].
  replace (filter is_logout (notification e)) with (@nil Event)
    by (unfold notification; destruct (message e); reflexivity).
  reflexivity.
Qed.

(** C5.  On a rejection with an AuthError whose [message] is [false],
    no render ever calls [notify], whatever [logoutOnFailure],
    [onError] and the history; with [logoutOnFailure] and no [onError],
    the render that first sees the failure still calls [logout]. *)
Theorem false_message_is_silent dap ref url :
  let failed :=
    useQuery (Settled (Rejected
      (AuthError_js ref {| message := MsgFalse; redirectTo := url |}))) in
  (forall hs a, notify_calls (events (useAuthState dap hs a failed)) = [])
  /\
  (forall pre h prm onS,
     let a := {| hooks := h; params := prm; logoutOnFailure := true;
                 queryOptions := {| onSuccess := onS; onError := None |} |} in
     let hs := snd (run dap mount (while_outstanding pre)) in
     events (useAuthState dap hs a failed)
     = [EvLogout []
          (redirectTarget dap (basename h)
             {| message := MsgFalse; redirectTo := url |})]).
Proof.
  intros failed. split.
  - intros hs a. subst failed. unfold useQuery.
    destruct (events_no_data dap hs a false
                (AuthError_js ref {| message := MsgFalse; redirectTo := url |}))
      as [H|H]; cbn zeta in H; rewrite H; [reflexivity|].
    destruct (onError (queryOptions a)) as [f|]; [reflexivity|].
    destruct (logoutOnFailure a).
    + now rewrite errorEffect_logout.
    + now rewrite errorEffect_idle.
  - intros pre h prm onS a hs. subst failed.
    first_failure.
    cbn [basename hooks logoutOnFailure onError queryOptions a].
    now rewrite errorEffect_logout.
Qed.

(** C6.  On a rejection with an AuthError, with an [onError] callback
    supplied, the render that first sees the failure calls [onError]
    with that error and nothing else, and no render ever calls [logout]
    or [notify], whatever [logoutOnFailure]. *)
Theorem onError_takes_over dap ref e h prm lof onS f :
  let a := {| hooks := h; params := prm; logoutOnFailure := lof;
              queryOptions := {| onSuccess := onS; onError := Some f |} |} in
  let failed := useQuery (Settled (Rejected (AuthError_js ref e))) in
  (forall pre,
     events (useAuthState dap (snd (run dap mount (while_outstanding pre))) a failed)
     = [EvOnError f (AuthError_js ref e)])
  /\
  (forall hs,
     logout_calls (events (useAuthState dap hs a failed)) = []
     /\ notify_calls (events (useAuthState dap hs a failed)) = []).
Proof.
  intros a failed. split.
  - intros pre. subst failed.
    first_failure.
    cbn [basename hooks logoutOnFailure onError queryOptions a].
    now rewrite errorEffect_onError.
  - intros hs. subst failed. unfold useQuery.
    destruct (events_no_data dap hs a false (AuthError_js ref e)) as [H|H];
      cbn zeta in H; rewrite H; [split; reflexivity|].
    cbn [basename hooks logoutOnFailure onError queryOptions a].
    rewrite errorEffect_onError by reflexivity. split; reflexivity.
Qed.

(** C7.  On a rejection with an AuthError whose [message] is not
    [false], with [logoutOnFailure] and no [onError], the render that
    first sees the failure notifies once, with the error's [message]
    when that is a non-empty string and with
    ['ra.auth.auth_check_error'] otherwise, and with the options
    [{type: 'error'}]; no render ever notifies with anything else. *)
Theorem notification_message dap ref e h prm onS :
  suppresses_notification e = false ->
  let a := {| hooks := h; params := prm; logoutOnFailure := true;
              queryOptions := {| onSuccess := onS; onError := None |} |} in
  let failed := useQuery (Settled (Rejected (AuthError_js ref e))) in
  let expected :=
    match message e with
    | MsgString s => if s =? "" then Js.Str "ra.auth.auth_check_error" else Js.Str s
    | _ => Js.Str "ra.auth.auth_check_error"
    end in
  (forall pre,
     notify_calls
       (events (useAuthState dap (snd (run dap mount (while_outstanding pre))) a failed))
     = [EvNotify expected [("type", Js.Str "error")]])
  /\
  (forall hs,
     incl (notify_calls (events (useAuthState dap hs a failed)))
       [EvNotify expected [("type", Js.Str "error")]]).
Proof.
  intros Hmsg a failed expected.
  assert (Hbody :
    notify_calls (calls (errorEffect dap (basename h) true None (AuthError_js ref e)))
    = [EvNotify expected [("type", Js.Str "error")]]).
  { rewrite errorEffect_logout. subst expected.
    unfold suppresses_notification in Hmsg. unfold notification.
    destruct (message e) as [s| |]; try discriminate; cbn; [|reflexivity].
    now destruct (s =? ""). }
  split.
  - intros pre. subst failed.
    first_failure.
    exact Hbody.
  - intros hs. subst failed. unfold useQuery.
    destruct (events_no_data dap hs a false (AuthError_js ref e)) as [H|H];
      cbn zeta in H; rewrite H.
    + intros ev [].
    + cbn [basename hooks logoutOnFailure onError queryOptions a].
      rewrite Hbody. apply incl_refl.
Qed.

Lemma notification_message_witness :
  let dap := {| loginUrl := "/login" |} in
  let a := {| hooks := {| authProvider :=
                            Some {| checkAuth := fun _ =>
                                      Rejected (Js.Obj 7 [("message", Js.Str "Session expired")]) |};
                          logout := 1; basename := "/admin"; notify := 2 |};
              params := Js.Obj 0 [];
              logoutOnFailure := true;
              queryOptions := {| onSuccess := None; onError := None |} |} in
  suppresses_notification
    {| message := MsgString "Session expired"; redirectTo := None |} = false
  /\ events (useAuthState dap mount a
               (useQuery (Settled (Rejected
                  (Js.Obj 7 [("message", Js.Str "Session expired")])))))
     = [EvLogout [] (Js.Str "/admin/login");
        EvNotify (Js.Str "Session expired") [("type", Js.Str "error")]]
  /\ notify_calls
       (events (useAuthState dap mount a
                  (useQuery (Settled (Rejected
                     (Js.Obj 7 [("message", Js.Str "Session expired")]))))))
     = [EvNotify (Js.Str "Session expired") [("type", Js.Str "error")]].
Proof.
  intros dap a. split; [reflexivity|]. split; [reflexivity|].
  exact (proj1
           (@notification_message dap 7
              {| message := MsgString "Session expired"; redirectTo := None |}
              (hooks a) (params a) None eq_refl) []).
Defined.


(** ** Success *)


(** C10.  Whenever a render calls [onSuccess], the argument is [true];
    and the query function resolves with nothing but [true]. *)
Theorem onSuccess_payload_is_true dap hs renders f d :
  In (EvOnSuccess f d) (trace (fst (run dap hs renders))) ->
  d = true
  /\ (forall provider prm,
        match queryFn provider prm with
        | Some (Resolved v) => v = true
        | _ => True
        end).
Proof.
  intros Hin. split; [exact (run_payload dap _ _ _ _ Hin)|].
  intros [p|] prm; cbn; [|exact I].
  now destruct (checkAuth p prm).
Qed.

Lemma onSuccess_payload_is_true_witness :
  let dap := {| loginUrl := "/login" |} in
  let a := {| hooks := {| authProvider := Some {| checkAuth := fun _ => Resolved tt |};
                          logout := 1; basename := ""; notify := 2 |};
              params := Js.Null;
              logoutOnFailure := false;
              queryOptions := {| onSuccess := Some 3; onError := None |} |} in
  In (EvOnSuccess 3 true)
    (trace (fst (run dap mount [(a, useQuery (Settled (Resolved true)))])))
  /\ true = true.
Proof.
  intros dap a.
  assert (H : In (EvOnSuccess 3 true)
                (trace (fst (run dap mount [(a, useQuery (Settled (Resolved true)))]))))
    by (left; reflexivity).
  split; [exact H|].
  exact (proj1 (@onSuccess_payload_is_true dap mount
                  [(a, useQuery (Settled (Resolved true)))] 3 true H)).
Defined.

(** * Further properties of the hook *)

Section Renders.

Variable dap : AuthParams.

Lemma completes_bind {A B} (m : Eff A) (k : Eff B) :
  completes (m ;;; k) = completes m && completes k.
Proof. destruct m as [evs [a|]]; destruct k as [evs' r]; reflexivity. Qed.

Lemma successEffect_completes o data : completes (successEffect o data) = true.
Proof. now destruct data as [[|]|], o as [f|]. Qed.

Lemma successEffect_calls o data :
  calls (successEffect o data) = []
  \/ exists f, o = Some f /\ data = Some true
               /\ calls (successEffect o data) = [EvOnSuccess f true].
Proof. destruct data as [[|]|], o as [f|]; cbn; eauto. Qed.

Lemma errorEffect_falsy bn lof onErr err :
  Js.truthy err = false -> errorEffect dap bn lof onErr err = ret tt.
Proof. intros H. unfold errorEffect. now rewrite H. Qed.

Lemma first_effect_completes hs a result :
  completes (first_effect hs a result) = true.
Proof.
  unfold first_effect.
  destruct (useEffect_body same_successDeps (successDeps hs)
              (successDeps_of a result)
              (successEffect (onSuccess (queryOptions a)) (Query.data result)))
    as [E|E]; rewrite E; [apply successEffect_completes|reflexivity].
Qed.

Lemma events_split hs a result :
  events (useAuthState dap hs a result)
  = calls (first_effect hs a result) ++ calls (second_effect dap hs a result).
Proof.
  unfold events. rewrite effects_useAuthState.
  change (calls (first_effect hs a result ;;; second_effect dap hs a result)
          = calls (first_effect hs a result)
            ++ calls (second_effect dap hs a result)).
  now rewrite calls_bind, first_effect_completes.
Qed.

Lemma first_effect_calls hs a result :
  calls (first_effect hs a result) = []
  \/ exists f, onSuccess (queryOptions a) = Some f
               /\ Query.data result = Some true
               /\ calls (first_effect hs a result) = [EvOnSuccess f true].
Proof.
  unfold first_effect.
  destruct (useEffect_body same_successDeps (successDeps hs)
              (successDeps_of a result)
              (successEffect (onSuccess (queryOptions a)) (Query.data result)))
    as [E|E]; rewrite E; [apply successEffect_calls|now left].
Qed.

Lemma second_effect_body hs a result :
  second_effect dap hs a result
  = errorEffect dap (basename (hooks a)) (logoutOnFailure a)
      (onError (queryOptions a)) (Query.error result)
  \/ second_effect dap hs a result = ret tt.
Proof. apply useEffect_body. Qed.

Lemma second_effect_new_error hs a result :
  error_is_new hs (Query.error result) = true ->
  second_effect dap hs a result
  = errorEffect dap (basename (hooks a)) (logoutOnFailure a)
      (onError (queryOptions a)) (Query.error result).
Proof.
  unfold error_is_new, second_effect, useEffect.
  destruct (errorDeps hs) as [d|]; [|reflexivity].
  intros Hnew. unfold same_errorDeps; cbn [errorDeps_of dep_error].
  apply negb_true_iff in Hnew. rewrite Hnew, andb_false_r. reflexivity.
Qed.

Lemma Js_same_refl v : Js.same v v = true.
Proof.
  destruct v as [| |b|s|ref fields]; cbn; try reflexivity.
  - now destruct b.
  - apply String.eqb_refl.
  - apply Nat.eqb_refl.
Qed.

Lemma same_fn_refl f : same_fn f f = true.
Proof. destruct f as [n|]; cbn; [apply Nat.eqb_refl|reflexivity]. Qed.

Lemma same_data_refl d : same_data d d = true.
Proof. now destruct d as [[|]|]. Qed.

Lemma same_successDeps_refl d : same_successDeps d d = true.
Proof. unfold same_successDeps. now rewrite same_fn_refl, same_data_refl. Qed.

Lemma same_errorDeps_refl d : same_errorDeps d d = true.
Proof.
  unfold same_errorDeps.
  rewrite String.eqb_refl, !Nat.eqb_refl, same_fn_refl, Js_same_refl.
  now destruct (dep_logoutOnFailure d).
Qed.

(** The second effect on an object, with [logoutOnFailure] and no
    [onError]: only the properties [redirectTo] and [message] matter. *)
Lemma errorEffect_object bn ref fields :
  errorEffect dap bn true None (Js.Obj ref fields)
  = (EvLogout []
       (if Js.neq_null (Js.lookup "redirectTo" fields)
        then Js.lookup "redirectTo" fields
        else Js.Str (default_loginUrl dap bn))
     :: (if Js.strict_eq_false (Js.lookup "message" fields) then []
         else [EvNotify
                 (if Js.truthy (Js.lookup "message" fields)
                  then Js.lookup "message" fields
                  else Js.Str "ra.auth.auth_check_error")
                 [("type", Js.Str "error")]]),
     Some tt).
Proof.
  unfold errorEffect, js_and, default_loginUrl; cbn.
  destruct (Js.neq_null (Js.lookup "redirectTo" fields)); cbn;
    destruct (Js.strict_eq_false (Js.lookup "message" fields)); cbn;
    try reflexivity;
    unfold getErrorMessage; cbn;
    destruct (Js.truthy (Js.lookup "message" fields)); reflexivity.
Qed.

Lemma errorEffect_shape bn lof onErr err :
  let evs := calls (errorEffect dap bn lof onErr err) in
  evs = []
  \/ (exists f, onErr = Some f /\ evs = [EvOnError f err])
  \/ (onErr = None /\ lof = true /\ exists target, evs = [EvLogout [] target])
  \/ (onErr = None /\ lof = true
      /\ exists target message,
           evs = [EvLogout [] target;
                  EvNotify message [("type", Js.Str "error")]]).
Proof.
  cbn zeta.
  destruct (Js.truthy err) eqn:Ht;
    [|rewrite errorEffect_falsy by exact Ht; now left].
  destruct onErr as [f|].
  { rewrite errorEffect_onError by exact Ht. right; left; eauto. }
  destruct lof; [|rewrite errorEffect_idle; now left].
  destruct err as [| |b|s|ref fields]; try discriminate.
  - cbn in Ht; subst b. do 3 right. repeat split.
    unfold errorEffect, js_and, getErrorMessage; cbn. eauto.
  - do 3 right. repeat split.
    unfold errorEffect, js_and, getErrorMessage; rewrite Ht; cbn. eauto.
  - rewrite errorEffect_object. unfold calls; cbn [fst].
    destruct (Js.strict_eq_false (Js.lookup "message" fields)).
    + right; right; left. repeat split; eauto.
    + do 3 right. repeat split; eauto.
Qed.

End Renders.

(** ** What a render may call *)

(** X1.  The effects of a render never raise a TypeError, whatever the
    error of the query is ([undefined], [null], a primitive or an
    object): every property read of the second effect is behind a
    truthiness test of the error. *)
Theorem effects_never_raise dap hs a result :
  completes (effects (useAuthState dap hs a result)) = true.
Proof.
  rewrite effects_useAuthState.
  change (completes (first_effect hs a result ;;; second_effect dap hs a result)
          = true).
  rewrite completes_bind, first_effect_completes; cbn [andb].
  destruct (second_effect_body dap hs a result) as [E|E]; rewrite E;
    [apply errorEffect_completes|reflexivity].
Qed.

(** X2.  A render whose query error is falsy ([undefined], [null],
    [false] or the empty string, as after [Promise.reject()]) never
    runs the failure policy: it calls no [onError], no [logout] and no
    [notify], whatever [logoutOnFailure], [onError], the data of the
    query and the hook state. *)
Theorem falsy_rejection_is_ignored dap hs a result :
  Js.truthy (Query.error result) = false ->
  let evs := events (useAuthState dap hs a result) in
  evs = [] \/ exists f, evs = [EvOnSuccess f true].
Proof.
  intros Hfalsy evs. subst evs. rewrite events_split.
  replace (calls (second_effect dap hs a result)) with (@nil Event).
  - rewrite app_nil_r.
    destruct (first_effect_calls hs a result) as [H|[f [_ [_ H]]]]; eauto.
  - destruct (second_effect_body dap hs a result) as [E|E]; rewrite E;
      [|reflexivity].
    now rewrite errorEffect_falsy.
Qed.

Lemma falsy_rejection_is_ignored_witness :
  let a := {| hooks := {| authProvider :=
                            Some {| checkAuth := fun _ => Rejected Js.Undefined |};
                          logout := 1; basename := "/admin"; notify := 2 |};
              params := Js.Obj 0 [];
              logoutOnFailure := true;
              queryOptions := {| onSuccess := None; onError := Some 9 |} |} in
  let evs := events (useAuthState {| loginUrl := "/login" |} mount a
                       (useQuery (Settled (Rejected Js.Undefined)))) in
  evs = [] \/ exists f, evs = [EvOnSuccess f true].
Proof.
  intros a.
  apply (@falsy_rejection_is_ignored {| loginUrl := "/login" |} mount a
           (useQuery (Settled (Rejected Js.Undefined)))).
  reflexivity.
Defined.

(** X3.  The calls of a render are at most one [onSuccess(true)]
    followed by one of: nothing; one [onError] with the error of the
    query; one [logout] with context [{}]; or that [logout] followed
    by one [notify] with options [{type: 'error'}].  So [notify] never
    comes without a [logout] before it, and [onError] never comes with
    either. *)
Theorem render_calls_shape dap hs a result :
  exists first second,
    events (useAuthState dap hs a result) = first ++ second
    /\ (first = [] \/ exists f, first = [EvOnSuccess f true])
    /\ (second = []
        \/ (exists f, second = [EvOnError f (Query.error result)])
        \/ (exists target, second = [EvLogout [] target])
        \/ (exists target message,
              second = [EvLogout [] target;
                        EvNotify message [("type", Js.Str "error")]])).
Proof.
  exists (calls (first_effect hs a result)),
         (calls (second_effect dap hs a result)).
  split; [apply events_split|]. split.
  - destruct (first_effect_calls hs a result) as [H|[f [_ [_ H]]]]; eauto.
  - destruct (second_effect_body dap hs a result) as [E|E]; rewrite E;
      [|now left].
    destruct (errorEffect_shape dap (basename (hooks a)) (logoutOnFailure a)
                (onError (queryOptions a)) (Query.error result))
      as [H|[[f [_ H]]|[[_ [_ [t H]]]|[_ [_ [t [m H]]]]]]]; cbn zeta in H;
      rewrite H.
    + now left.
    + right; left; eauto.
    + right; right; left; eauto.
    + do 3 right; eauto.
Qed.

(** X4.  A rejection with a bare non-empty string, with
    [logoutOnFailure] and no [onError]: the render that first sees it
    logs out to the default login URL and notifies with the string
    itself, not with the default message. *)
Theorem string_rejection dap pre h prm onS s :
  (s =? "") = false ->
  let a := {| hooks := h; params := prm; logoutOnFailure := true;
              queryOptions := {| onSuccess := onS; onError := None |} |} in
  events (useAuthState dap (snd (run dap mount (while_outstanding pre))) a
            (useQuery (Settled (Rejected (Js.Str s)))))
  = [EvLogout [] (Js.Str (default_loginUrl dap (basename h)));
     EvNotify (Js.Str s) [("type", Js.Str "error")]].
Proof.
  intros Hs a.
  rewrite events_first_failure;
    [|apply run_while_outstanding, unsettled_mount|cbn; now rewrite Hs].
  unfold errorEffect, js_and; cbn. rewrite Hs. reflexivity.
Qed.

Lemma string_rejection_witness :
  events (useAuthState {| loginUrl := "/login" |} mount
            {| hooks := {| authProvider := None; logout := 1;
                           basename := "/admin"; notify := 2 |};
               params := Js.Null; logoutOnFailure := true;
               queryOptions := {| onSuccess := None; onError := None |} |}
            (useQuery (Settled (Rejected (Js.Str "boom")))))
  = [EvLogout [] (Js.Str "/admin/login");
     EvNotify (Js.Str "boom") [("type", Js.Str "error")]].
Proof.
  exact (@string_rejection {| loginUrl := "/login" |} []
           {| authProvider := None; logout := 1;
              basename := "/admin"; notify := 2 |}
           Js.Null None "boom" eq_refl).
Defined.

(** ** getErrorMessage *)

(** X5.  For a truthy error and a truthy default, [getErrorMessage]
    returns a truthy message without raising: the error itself when
    it is a string; otherwise the error's [message] when that is
    truthy, and the default when it is empty, missing or otherwise
    falsy. *)
Theorem getErrorMessage_truthy err default :
  Js.truthy err = true -> Js.truthy default = true ->
  exists m,
    getErrorMessage err default = Some m
    /\ Js.truthy m = true
    /\ match err with
       | Js.Str _ => m = err
       | _ => exists v, Js.get err "message" = Some v
                        /\ m = (if Js.truthy v then v else default)
       end.
Proof.
  intros He Hd. destruct err as [| |b|s|ref fields]; try discriminate.
  - exists default. repeat split; [exact Hd|]. exists Js.Undefined. now split.
  - exists (Js.Str s). repeat split. exact He.
  - unfold getErrorMessage; cbn.
    destruct (Js.truthy (Js.lookup "message" fields)) eqn:Hm; cbn.
    + exists (Js.lookup "message" fields). repeat split; [exact Hm|].
      exists (Js.lookup "message" fields). now rewrite Hm.
    + exists default. repeat split; [exact Hd|].
      exists (Js.lookup "message" fields). now rewrite Hm.
Qed.

Lemma getErrorMessage_truthy_witness :
  exists m,
    getErrorMessage (Js.Obj 1 [("message", Js.Str "")])
      (Js.Str "ra.auth.auth_check_error") = Some m
    /\ Js.truthy m = true
    /\ exists v, Js.get (Js.Obj 1 [("message", Js.Str "")]) "message" = Some v
                 /\ m = (if Js.truthy v then v
                         else Js.Str "ra.auth.auth_check_error").
Proof.
  apply (@getErrorMessage_truthy (Js.Obj 1 [("message", Js.Str "")])
           (Js.Str "ra.auth.auth_check_error")); reflexivity.
Defined.

(** X6.  [getErrorMessage] raises a TypeError for [null] and for no
    other error: [typeof null] is ['object'], so [null.message] is
    read. *)
Theorem getErrorMessage_raises_on_null err default :
  getErrorMessage err default = None <-> err = Js.Null.
Proof.
  split.
  - destruct err as [| |b|s|ref fields]; unfold getErrorMessage; cbn;
      try discriminate; [reflexivity|].
    destruct (Js.truthy (Js.lookup "message" fields)); discriminate.
  - intros ->. reflexivity.
Qed.

(** ** Dependency arrays at work *)

Lemma first_effect_no_data hs a result :
  Query.data result = None -> calls (first_effect hs a result) = [].
Proof.
  intros Hd. destruct (first_effect_calls hs a result) as [H|[f [_ [H _]]]];
    [exact H|congruence].
Qed.

Lemma render_again_is_silent dap hs a result :
  events (useAuthState dap (next (useAuthState dap hs a result)) a result) = [].
Proof.
  rewrite events_split, next_useAuthState.
  unfold first_effect, second_effect, useEffect; cbn [successDeps errorDeps].
  change (same_successDeps _ (successDeps_of a result))
    with (same_successDeps (successDeps_of a result) (successDeps_of a result)).
  change (same_errorDeps _ (errorDeps_of a result))
    with (same_errorDeps (errorDeps_of a result) (errorDeps_of a result)).
  now rewrite same_successDeps_refl, same_errorDeps_refl.
Qed.

(** X7.  Rendering again with the same hook values, arguments and query
    result, any number of times, makes no call: the effects run only
    when one of their dependencies changes. *)
Theorem unchanged_renders_are_silent dap a result n : forall hs,
  trace (fst (run dap (next (useAuthState dap hs a result))
                (repeat (a, result) n))) = [].
Proof.
  induction n as [|n IH]; intros hs; [reflexivity|].
  cbn [repeat]. rewrite run_cons; cbn [fst].
  rewrite trace_cons, render_again_is_silent. apply IH.
Qed.


(** X9.  A render that sees the call resolved never runs the failure
    policy: its only possible call is [onSuccess(true)]. *)
Theorem success_calls_onSuccess_only dap hs a d :
  let evs := events (useAuthState dap hs a (useQuery (Settled (Resolved d)))) in
  evs = []
  \/ exists f, onSuccess (queryOptions a) = Some f /\ d = true
               /\ evs = [EvOnSuccess f true].
Proof.
  cbn zeta. rewrite events_split.
  replace (calls (second_effect dap hs a (useQuery (Settled (Resolved d)))))
    with (@nil Event)
    by (destruct (second_effect_body dap hs a (useQuery (Settled (Resolved d))))
          as [E|E]; rewrite E; reflexivity).
  rewrite app_nil_r.
  destruct (first_effect_calls hs a (useQuery (Settled (Resolved d))))
    as [H|[f [Hf [Hd H]]]]; [now left|right].
  exists f. repeat split; [exact Hf|cbn in Hd; congruence|exact H].
Qed.

Lemma opted_out_render dap hs a result :
  logoutOnFailure a = false \/ onError (queryOptions a) <> None ->
  logout_calls (events (useAuthState dap hs a result)) = []
  /\ notify_calls (events (useAuthState dap hs a result)) = [].
Proof.
  intros Hout. rewrite events_split. unfold logout_calls, notify_calls.
  rewrite !filter_app.
  assert (Hfirst : filter is_logout (calls (first_effect hs a result)) = []
                   /\ filter is_notify (calls (first_effect hs a result)) = []).
  { destruct (first_effect_calls hs a result) as [H|[f [_ [_ H]]]];
      rewrite H; split; reflexivity. }
  destruct Hfirst as [-> ->]; cbn [app].
  destruct (second_effect_body dap hs a result) as [E|E]; rewrite E;
    [|split; reflexivity].
  destruct (errorEffect_shape dap (basename (hooks a)) (logoutOnFailure a)
              (onError (queryOptions a)) (Query.error result))
    as [H|[[f [_ H]]|[[Hn [Hl _]]|[Hn [Hl _]]]]].
  - cbn zeta in H; rewrite H; split; reflexivity.
  - cbn zeta in H; rewrite H; split; reflexivity.
  - destruct Hout; congruence.
  - destruct Hout; congruence.
Qed.

(** X10.  In a run in which every render either has [logoutOnFailure]
    false or supplies [onError], no render calls [logout] or [notify],
    whatever the errors the query reports. *)
Theorem opted_out_runs_never_log_out dap renders : forall hs,
  Forall (fun r => logoutOnFailure (fst r) = false
                   \/ onError (queryOptions (fst r)) <> None) renders ->
  logout_calls (trace (fst (run dap hs renders))) = []
  /\ notify_calls (trace (fst (run dap hs renders))) = [].
Proof.
  induction renders as [|[a result] renders IH]; intros hs Hall;
    [split; reflexivity|].
  inversion Hall as [|? ? Hout Hrest]; subst. cbn [fst] in Hout.
  rewrite run_cons; cbn [fst]. rewrite trace_cons.
  unfold logout_calls, notify_calls. rewrite !filter_app.
  destruct (opted_out_render dap hs a result Hout) as [Hl Hn].
  destruct (IH (next (useAuthState dap hs a result)) Hrest) as [Hl' Hn'].
  unfold logout_calls, notify_calls in *. now rewrite Hl, Hn, Hl', Hn'.
Qed.

Lemma opted_out_runs_never_log_out_witness :
  let dap := {| loginUrl := "/login" |} in
  let h := {| authProvider := Some {| checkAuth := fun _ => Rejected (Js.Str "no") |};
              logout := 1; basename := "/admin"; notify := 2 |} in
  let a := {| hooks := h; params := Js.Null; logoutOnFailure := true;
              queryOptions := {| onSuccess := None; onError := Some 4 |} |} in
  let b := {| hooks := h; params := Js.Null; logoutOnFailure := false;
              queryOptions := {| onSuccess := None; onError := None |} |} in
  let renders := [(a, useQuery Outstanding);
                  (a, useQuery (Settled (Rejected (Js.Str "no"))));
                  (b, useQuery (Settled (Rejected (Js.Str "no"))))] in
  logout_calls (trace (fst (run dap mount renders))) = []
  /\ notify_calls (trace (fst (run dap mount renders))) = [].
Proof.
  intros dap h a b renders.
  apply (@opted_out_runs_never_log_out dap renders mount).
  apply Forall_cons; [right; discriminate|].
  apply Forall_cons; [right; discriminate|].
  apply Forall_cons; [left; reflexivity|].
  apply Forall_nil.
Defined.

(** X11.  [authenticated] looks at the data before the error: when the
    query still holds the datum [true] of an earlier success next to
    a new error, the render returns [authenticated === true] and, with
    [logoutOnFailure] and no [onError], logs out all the same. *)
Theorem kept_data_outlives_the_error dap hs h prm onS ref e loading :
  error_is_new hs (AuthError_js ref e) = true ->
  let a := {| hooks := h; params := prm; logoutOnFailure := true;
              queryOptions := {| onSuccess := onS; onError := None |} |} in
  let result := {| Query.data := Some true; Query.isLoading := loading;
                   Query.error := AuthError_js ref e |} in
  let r := useAuthState dap hs a result in
  authenticated (state r) = true
  /\ logout_calls (events r) = [EvLogout [] (redirectTarget dap (basename h) e)].
Proof.
  intros Hnew a result r. subst r. split.
  - now rewrite state_useAuthState.
  - rewrite events_split, (second_effect_new_error dap hs a result Hnew).
    cbn [basename hooks logoutOnFailure onError queryOptions a Query.error result].
    rewrite errorEffect_logout. unfold logout_calls, calls; cbn [fst].
    rewrite filter_app.
    replace (filter is_logout (fst (first_effect hs a result))) with (@nil Event)
      by (destruct (first_effect_calls hs a result) as [H|[f [_ [_ H]]]];
          unfold calls in H; rewrite H; reflexivity).
    cbn [app filter is_logout].
    replace (filter is_logout (notification e)) with (@nil Event)
      by (unfold notification; destruct (message e); reflexivity).
    reflexivity.
Qed.

Lemma kept_data_outlives_the_error_witness :
  let dap := {| loginUrl := "/login" |} in
  let h := {| authProvider := Some {| checkAuth := fun _ => Resolved tt |};
              logout := 1; basename := "/admin"; notify := 2 |} in
  let a := {| hooks := h; params := Js.Null; logoutOnFailure := true;
              queryOptions := {| onSuccess := None; onError := None |} |} in
  let e := {| message := MsgString "Session expired"; redirectTo := None |} in
  let hs := snd (run dap mount [(a, useQuery Outstanding);
                                (a, useQuery (Settled (Resolved true)))]) in
  let r := useAuthState dap hs a
             {| Query.data := Some true; Query.isLoading := false;
                Query.error := AuthError_js 7 e |} in
  authenticated (state r) = true
  /\ logout_calls (events r) = [EvLogout [] (Js.Str "/admin/login")].
Proof.
  intros dap h a e hs.
  apply (@kept_data_outlives_the_error dap hs h Js.Null None 7 e false).
  reflexivity.
Defined.

Lemma second_effect_changed dap hs a result d :
  errorDeps hs = Some d ->
  same_errorDeps d (errorDeps_of a result) = false ->
  second_effect dap hs a result
  = errorEffect dap (basename (hooks a)) (logoutOnFailure a)
      (onError (queryOptions a)) (Query.error result).
Proof.
  intros Hd Hsame. unfold second_effect, useEffect. now rewrite Hd, Hsame.
Qed.

(** X12.  [logoutOnFailure] is a dependency of the second effect: when
    a failure was first rendered with [logoutOnFailure] false (and no
    [onError]), which calls nothing, a later render of the same failure
    with [logoutOnFailure] true runs the default policy. *)
Theorem logoutOnFailure_turned_on dap hs h prm onS ref e :
  let a lof := {| hooks := h; params := prm; logoutOnFailure := lof;
                  queryOptions := {| onSuccess := onS; onError := None |} |} in
  let failed := useQuery (Settled (Rejected (AuthError_js ref e))) in
  let r := useAuthState dap hs (a false) failed in
  events r = []
  /\ events (useAuthState dap (next r) (a true) failed)
     = EvLogout [] (redirectTarget dap (basename h) e) :: notification e.
Proof.
  intros a failed r. subst r. split.
  - rewrite events_split, first_effect_no_data by reflexivity.
    destruct (second_effect_body dap hs (a false) failed) as [E|E]; rewrite E;
      [|reflexivity].
    cbn [basename hooks logoutOnFailure onError queryOptions a].
    now rewrite errorEffect_idle.
  - rewrite events_split, first_effect_no_data by reflexivity.
    erewrite second_effect_changed.
    + cbn [basename hooks logoutOnFailure onError queryOptions a Query.error
           failed useQuery app].
      now rewrite errorEffect_logout.
    + rewrite next_useAuthState. reflexivity.
    + unfold same_errorDeps, errorDeps_of.
      cbn [dep_logoutOnFailure logoutOnFailure a Bool.eqb].
      now rewrite andb_false_r.
Qed.

(** X13.  [onError] is a dependency of the second effect: when the
    callback supplied changes identity while the same (truthy) error is
    rendered, the new callback is called with that error. *)
Theorem new_onError_gets_the_error dap hs h prm lof onS f g err :
  Nat.eqb f g = false ->
  Js.truthy err = true ->
  let a k := {| hooks := h; params := prm; logoutOnFailure := lof;
                queryOptions := {| onSuccess := onS; onError := Some k |} |} in
  let failed := useQuery (Settled (Rejected err)) in
  events (useAuthState dap (next (useAuthState dap hs (a f) failed)) (a g) failed)
  = [EvOnError g err].
Proof.
  intros Hfg Ht a failed.
  rewrite events_split, first_effect_no_data by reflexivity.
  erewrite second_effect_changed.
  - cbn [basename hooks logoutOnFailure onError queryOptions a Query.error
         failed useQuery app].
    now rewrite errorEffect_onError.
  - rewrite next_useAuthState. reflexivity.
  - unfold same_errorDeps, errorDeps_of.
    cbn [dep_onError onError queryOptions a same_fn].
    now rewrite Hfg, andb_false_r.
Qed.

Lemma new_onError_gets_the_error_witness :
  let dap := {| loginUrl := "/login" |} in
  let h := {| authProvider := None; logout := 1; basename := ""; notify := 2 |} in
  let a k := {| hooks := h; params := Js.Null; logoutOnFailure := true;
                queryOptions := {| onSuccess := None; onError := Some k |} |} in
  let failed := useQuery (Settled (Rejected (Js.Str "denied"))) in
  events (useAuthState dap (next (useAuthState dap mount (a 1) failed)) (a 2) failed)
  = [EvOnError 2 (Js.Str "denied")].
Proof.
  intros dap h a failed.
  apply (@new_onError_gets_the_error dap mount h Js.Null true None 1 2
           (Js.Str "denied")); reflexivity.
Defined.

(** ** Errors that are objects *)

(** X14.  For an error object, with no [onError], the calls of the
    second effect depend on the object's [message] and [redirectTo]
    only: other properties and the identity of the object make no
    difference. *)
Theorem only_message_and_redirectTo_matter dap bn lof ref fields ref' fields' :
  Js.lookup "message" fields = Js.lookup "message" fields' ->
  Js.lookup "redirectTo" fields = Js.lookup "redirectTo" fields' ->
  errorEffect dap bn lof None (Js.Obj ref fields)
  = errorEffect dap bn lof None (Js.Obj ref' fields').
Proof.
  intros Hm Hr. destruct lof; [|now rewrite !errorEffect_idle].
  now rewrite !errorEffect_object, Hm, Hr.
Qed.

Lemma only_message_and_redirectTo_matter_witness :
  errorEffect {| loginUrl := "/login" |} "/admin" true None
    (Js.Obj 1 [("status", Js.Str "401"); ("message", Js.Str "Unauthorized")])
  = errorEffect {| loginUrl := "/login" |} "/admin" true None
      (Js.Obj 2 [("message", Js.Str "Unauthorized")]).
Proof.
  apply (@only_message_and_redirectTo_matter {| loginUrl := "/login" |}
           "/admin" true 1
           [("status", Js.Str "401"); ("message", Js.Str "Unauthorized")]
           2 [("message", Js.Str "Unauthorized")]); reflexivity.
Defined.

(** X15.  An error object whose [redirectTo] is [null] or [undefined]
    (or absent) sends [logout] to the default login URL; any other
    [redirectTo], the empty string included, is passed to [logout] as
    it is. *)
Theorem redirectTo_of_an_object dap pre h prm onS ref fields :
  let a := {| hooks := h; params := prm; logoutOnFailure := true;
              queryOptions := {| onSuccess := onS; onError := None |} |} in
  logout_calls
    (events (useAuthState dap (snd (run dap mount (while_outstanding pre))) a
               (useQuery (Settled (Rejected (Js.Obj ref fields))))))
  = [EvLogout []
       match Js.lookup "redirectTo" fields with
       | Js.Undefined | Js.Null => Js.Str (default_loginUrl dap (basename h))
       | url => url
       end].
Proof.
  intros a. first_failure.
  cbn [basename hooks logoutOnFailure onError queryOptions a].
  rewrite errorEffect_object. unfold logout_calls, calls; cbn [fst filter is_logout].
  replace (filter is_logout _) with (@nil Event)
    by (destruct (Js.strict_eq_false _); reflexivity).
  now destruct (Js.lookup "redirectTo" fields).
Qed.

(** ** Success, across the fetches of the query *)

Section OnSuccess.

Variable dap : AuthParams.
Variable f : FnId.












End OnSuccess.


